(** * cuRNN: the [tensor4] container, its bound checker, and [layer]

    A shallow embedding of [tensor/tensor.cuh] (classes [tensorBoundChecker]
    and [tensor4]) and of [layer/layer.hpp] (class [layer]), followed by the
    properties of the address mapping, the storage invariant, the fail-soft
    error path and weight initialisation.

    Conventions of the embedding.
    - [uint] is a 32-bit unsigned integer and [int] a 32-bit signed one;
      both are carried by [Z], with every wrap-around and conversion
      written out ([to_uint], [uadd], [umul]).
    - [std::vector<dType>] is a [list dType].  [std::vector::operator[]]
      does no bounds check, so a subscript at or beyond the length has no
      defined behaviour: [vector_at] and [store] answer [None] there.
    - A [dType&] returned by the writable accessor is the subscript of
      [tensor->data] it is bound to.
    - [std::cerr] is a list of [diagnostic] events, in emission order. *)

From stdpp Require Import base numbers option list.

Local Open Scope Z_scope.

(** ** Machine integers *)

Definition UINT_MAX : Z := 2 ^ 32 - 1.

Definition is_uint (n : Z) : Prop := 0 ≤ n < 2 ^ 32.
Definition is_int (n : Z) : Prop := - 2 ^ 31 ≤ n < 2 ^ 31.

(** [static_cast<uint>( n )], also the implicit conversion of an [int]
    operand that meets a [uint] one. *)
Definition to_uint (n : Z) : Z := n mod 2 ^ 32.

(** Conversion to [size_t] (64 bits), as applied to a vector subscript. *)
Definition to_size (n : Z) : Z := n mod 2 ^ 64.

(** [a + b] and [a * b] on [uint] operands. *)
Definition uadd (a b : Z) : Z := (a + b) mod 2 ^ 32.
Definition umul (a b : Z) : Z := (a * b) mod 2 ^ 32.

(** ** The element type

    [dType] is a template parameter; the code needs the literal [0]
    converted to it, [std::numeric_limits<dType>::max()] and [==]. *)

Class Numeric (dType : Type) := {
  zero : dType;
  numeric_max : dType;
  numeric_eq_dec :: EqDecision dType
}.

(** [dType = int]. *)
#[export] Instance int_numeric : Numeric Z :=
  {| zero := 0; numeric_max := 2 ^ 31 - 1 |}.

(** ** Diagnostics written to [std::cerr] *)

(** The tail of a message: what the accessor falls back to. *)
Inductive fallback := FirstElement | MaxValue.

Inductive diagnostic :=
  (** "Dimension <dim> not valid for tensor : Returning ..." *)
  | DimNotValid (dim : Z) (f : fallback)
  (** "Out of Range error for index <index> in tensor dimension <dim> :
      Returning ..." *)
  | OutOfRange (index dim : Z) (f : fallback).

(** ** [std::vector] *)

(** [v[ k ]] as an rvalue. *)
Definition vector_at {A} (v : list A) (k : Z) : option A :=
  if decide (0 ≤ k) then v !! Z.to_nat k else None.

(** ** [tensor4] *)

Record tensor4 (dType : Type) := Tensor4 {
  w : Z;
  x : Z;
  y : Z;
  z : Z;
  data : list dType
}.
Arguments Tensor4 {dType} _ _ _ _ _.
Arguments w {dType} _.
Arguments x {dType} _.
Arguments y {dType} _.
Arguments z {dType} _.
Arguments data {dType} _.

Section Tensor.
Context {dType : Type} `{Numeric dType}.

(** [explicit tensor4()] *)
Definition tensor4_default : tensor4 dType := Tensor4 0 0 0 0 [].

(** [explicit tensor4( uint _w, uint _x, uint _y, uint _z )].  Members are
    initialised in declaration order, so the member [y] read by the
    initialiser of [data] already holds [_y]. *)
Definition tensor4_ctor (_w _x _y _z : Z) : tensor4 dType :=
  Tensor4 _w _x _y _z
          (replicate (Z.to_nat (umul (umul (umul _w _x) _y) _z)) zero).

(** [size()] *)
Definition size (t : tensor4 dType) : Z := Z.of_nat (length (data t)).

(** [reshape( int w_new, int x_new, int y_new, int z_new )];
    [data.resize( n, 0 )] keeps the first [n] elements and pads with [0]. *)
Definition reshape (t : tensor4 dType) (w_new x_new y_new z_new : Z)
  : tensor4 dType :=
  let w' := if decide (w_new ≠ -1) then to_uint w_new else w t in
  let x' := if decide (x_new ≠ -1) then to_uint x_new else x t in
  let y' := if decide (y_new ≠ -1) then to_uint y_new else y t in
  let z' := if decide (z_new ≠ -1) then to_uint z_new else z t in
  Tensor4 w' x' y' z'
          (resize (Z.to_nat (umul (umul (umul w' x') y') z')) zero (data t)).

(** [operator()( uint w_new, uint x_new, uint y_new, uint z_new )],
    returning [void].  Its last statement, [data( w * x * y * z, 0 )],
    applies a call operator that [std::vector] does not declare, so a
    compiler rejects the member once it is instantiated: no program calls
    it.  The statement is written like the constructor's initialiser of
    [data] and is read here in that way, the store becoming
    [w * x * y * z] zeros; this reading only serves to let the set of
    tensors considered below include what such a call would leave. *)
Definition tensor4_call (t : tensor4 dType) (w_new x_new y_new z_new : Z)
  : tensor4 dType :=
  Tensor4 w_new x_new y_new z_new
          (replicate (Z.to_nat (umul (umul (umul w_new x_new) y_new) z_new))
                     zero).

(** ** [tensorBoundChecker]

    [tensor4::operator[]( int dim )] builds a checker holding [dim] and a
    pointer to the tensor; the two accessors below take both. *)

(** The test [index >= 0 && index < extent], where [index] is converted
    to [uint] for the comparison with the [uint] extent. *)
Definition index_ok (index extent : Z) : bool :=
  bool_decide (0 ≤ index) && bool_decide (to_uint index < extent).

(** [dType& operator[]( int index )]: the subscript of [tensor->data] the
    returned reference is bound to, and what was printed. *)
Definition tensorBoundChecker_subscript
    (t : tensor4 dType) (dim index : Z) : Z * list diagnostic :=
  let checked (offset : Z) :=
    if decide (offset = UINT_MAX)
    then (0, [OutOfRange index dim FirstElement])
    else (offset, []) in
  match dim with
  | 0 => checked (if index_ok index (w t)
                  then to_uint index else UINT_MAX)
  | 1 => checked (if index_ok index (x t)
                  then uadd (w t) (to_uint index) else UINT_MAX)
  | 2 => checked (if index_ok index (y t)
                  then uadd (uadd (w t) (x t)) (to_uint index)
                  else UINT_MAX)
  | 3 => checked (if index_ok index (z t)
                  then uadd (uadd (uadd (w t) (x t)) (y t)) (to_uint index)
                  else UINT_MAX)
  | _ => (0, [DimNotValid dim FirstElement])
  end.

(** [dType const& operator[]( int index ) const], up to its [return]: what
    the local [output] (or the temporary of the [default] branch) holds
    when the function returns, and what was printed; [None] when a vector
    subscript it evaluates lies outside the store.  The reference the
    function returns is bound to that local, which dies at the return: a
    caller cannot read the value through it, and nothing below is stated
    about such a read. *)
Definition tensorBoundChecker_subscript_const
    (t : tensor4 dType) (dim index : Z) : option (dType * list diagnostic) :=
  let checked (output : dType) :=
    (output,
     if decide (output = numeric_max)
     then [OutOfRange index dim MaxValue] else []) in
  match dim with
  | 0 => checked <$> (if index_ok index (w t)
                      then vector_at (data t) (to_size index)
                      else Some numeric_max)
  | 1 => checked <$> (if index_ok index (x t)
                      then vector_at (data t) (uadd (w t) (to_uint index))
                      else Some numeric_max)
  | 2 => checked <$> (if index_ok index (y t)
                      then vector_at (data t)
                             (uadd (uadd (w t) (x t)) (to_uint index))
                      else Some numeric_max)
  | 3 => checked <$> (if index_ok index (z t)
                      then vector_at (data t)
                             (uadd (uadd (uadd (w t) (x t)) (y t))
                                   (to_uint index))
                      else Some numeric_max)
  | _ => Some (numeric_max, [DimNotValid dim MaxValue])
  end.

(** ** Using a returned reference *)

(** Reading through a reference bound to [data[ loc ]]. *)
Definition load (t : tensor4 dType) (loc : Z) : option dType :=
  vector_at (data t) loc.

(** Assigning through a reference bound to [data[ loc ]]. *)
Definition store (t : tensor4 dType) (loc : Z) (v : dType)
  : option (tensor4 dType) :=
  if decide (0 ≤ loc < size t)
  then Some (Tensor4 (w t) (x t) (y t) (z t) (<[Z.to_nat loc := v]> (data t)))
  else None.

(** The statement [t[ dim ][ index ] = v]. *)
Definition write (t : tensor4 dType) (dim index : Z) (v : dType)
  : option (tensor4 dType * list diagnostic) :=
  let '(loc, out) := tensorBoundChecker_subscript t dim index in
  t' ← store t loc v; Some (t', out).

(** The expression [t[ dim ][ index ]] used as an rvalue: overload
    resolution picks the non-const accessor, and the reference is read. *)
Definition read (t : tensor4 dType) (dim index : Z)
  : option (dType * list diagnostic) :=
  let '(loc, out) := tensorBoundChecker_subscript t dim index in
  v ← load t loc; Some (v, out).

End Tensor.

(** ** [layer]

    [layer] derives from its [typePolicy], which owns the members [wba]
    (a [tensor4<dType>], see [getWBA]) and [errors]. *)

Record layer (dType : Type) := Layer {
  wba : tensor4 dType;
  errors : list dType;
  numNodes : Z;
  numInputs : Z;
  depth : Z;
  outputs : list dType
}.
Arguments Layer {dType} _ _ _ _ _ _.
Arguments wba {dType} _.
Arguments errors {dType} _.
Arguments numNodes {dType} _.
Arguments numInputs {dType} _.
Arguments depth {dType} _.
Arguments outputs {dType} _.

(** [for ( uint k = 0; k < bound; k++ ) body]: [bound] is a [uint], so the
    counter never wraps before the test fails. *)
Definition for_uint {S} (bound : Z) (body : Z → S → S) (s : S) : S :=
  fold_left (λ s k, body (Z.of_nat k) s) (seq 0 (Z.to_nat bound)) s.

Section Layer.
Context {dType : Type} `{Numeric dType}.

(** [curnn::math::rand( min, max )] is declared in [math/math.hpp]; it is
    taken as a function of the two bounds and of the generator's state. *)
Context {G : Type} (rand : dType → dType → G → dType * G).

(** [explicit layer()]: the base [typePolicy] is constructed first and
    leaves [wba] and [errors] as [policy_wba] and [policy_errors]. *)
Definition layer_ctor (policy_wba : tensor4 dType) (policy_errors : list dType)
    (_nodes _inputs _depth : Z) : layer dType :=
  Layer policy_wba policy_errors _nodes _inputs _depth
        (replicate (Z.to_nat _nodes) zero).

(** The layer after an update of the inherited member [wba]. *)
Definition set_wba (l : layer dType) (t : tensor4 dType) : layer dType :=
  Layer t (errors l) (numNodes l) (numInputs l) (depth l) (outputs l).

(** The statement [this->wba( n, i, d, 0 ) = curnn::math::rand( min, max )].
    Its left operand is a call of [tensor4::operator()], of type [void]:
    there is no object for the drawn value to be assigned to, and the
    statement is rejected once the member is instantiated with a [tensor4]
    as [wba].  The model draws from the generator and applies the call to
    [wba]; what it makes of [wba] is not a behaviour of the program, and
    the properties of [initializeWeights] below are those of its loop
    nest, which hold whatever this statement does to [wba]. *)
Definition assign_weight (min max : dType) (n i d : Z)
    (s : layer dType * G) : layer dType * G :=
  let '(_, g') := rand min max s.2 in
  (set_wba s.1 (tensor4_call (wba s.1) n i d 0), g').

(** [initializeWeights( dType min, dType max )]: the state is the layer
    and the generator; each loop reads its bound from the layer. *)
Definition initializeWeights (l : layer dType) (min max : dType) (g : G)
    : layer dType * G :=
  for_uint (depth l) (λ d s,
    for_uint (numInputs s.1) (λ i s,
      for_uint (numNodes s.1) (λ n s,
        assign_weight min max n i d s) s) s) (l, g).

(** [getWBA()] *)
Definition getWBA (l : layer dType) : tensor4 dType := wba l.

(** [&v[ 0 ]]: a pointer to the first element of [v], through which the
    elements of [v] are read in order; [v[ 0 ]] needs a non-empty [v]. *)
Definition vector_front_ptr {A} (v : list A) : option (list A) :=
  match v with
  | [] => None
  | _ :: _ => Some v
  end.

(** [getOutputs()] *)
Definition getOutputs (l : layer dType) : option (list dType) :=
  vector_front_ptr (outputs l).

(** [getErrors()] *)
Definition getErrors (l : layer dType) : option (list dType) :=
  vector_front_ptr (errors l).

End Layer.

(** ** Vocabulary of the specification *)

Section Vocabulary.
Context {dType : Type} `{Numeric dType}.

(** The extent of axis [dim]. *)
Definition extent (t : tensor4 dType) (dim : Z) : Z :=
  match dim with
  | 0 => w t
  | 1 => x t
  | 2 => y t
  | 3 => z t
  | _ => 0
  end.

(** The additive offset of the specification: [index], [w + index],
    [w + x + index], [w + x + y + index], as sums of integers. *)
Definition window_offset (t : tensor4 dType) (dim index : Z) : Z :=
  match dim with
  | 0 => index
  | 1 => w t + index
  | 2 => w t + x t + index
  | _ => w t + x t + y t + index
  end.

(** A dimension selector in [{0,1,2,3}] and an index within that axis. *)
Definition valid_access (t : tensor4 dType) (dim index : Z) : Prop :=
  0 ≤ dim ≤ 3 ∧ 0 ≤ index < extent t dim.

(** The one message of a refused access. *)
Definition report (dim index : Z) (f : fallback) : diagnostic :=
  if decide (0 ≤ dim ≤ 3) then OutOfRange index dim f else DimNotValid dim f.

(** What the read-only accessor makes of a fetched element. *)
Definition fetched (dim index : Z) (output : dType) : dType * list diagnostic :=
  (output,
   if decide (output = numeric_max) then [OutOfRange index dim MaxValue] else []).

(** The tensors a program can build: the two constructors, then [reshape],
    [operator()] and assignments through the writable accessor. *)
Inductive reachable : tensor4 dType → Prop :=
  | reach_default : reachable tensor4_default
  | reach_ctor _w _x _y _z : reachable (tensor4_ctor _w _x _y _z)
  | reach_reshape t w_new x_new y_new z_new :
      reachable t → reachable (reshape t w_new x_new y_new z_new)
  | reach_call t w_new x_new y_new z_new :
      reachable t → reachable (tensor4_call t w_new x_new y_new z_new)
  | reach_write t dim index v t' out :
      reachable t → write t dim index v = Some (t', out) → reachable t'.

End Vocabulary.

(** What [initializeWeights] never assigns: every member of the layer but
    [wba]. *)
Definition same_members {dType G : Type} (l : layer dType)
    (s : layer dType * G) : Prop :=
  numNodes s.1 = numNodes l ∧ numInputs s.1 = numInputs l ∧
  depth s.1 = depth l ∧ outputs s.1 = outputs l ∧ errors s.1 = errors l.

(** The four windows lie one after the other below [2 ^ 32 - 1]: no
    extent is negative and no additive offset wraps or meets the marker. *)
Definition windows_fit {dType : Type} (t : tensor4 dType) : Prop :=
  0 ≤ w t ∧ 0 ≤ x t ∧ 0 ≤ y t ∧ 0 ≤ z t ∧ w t + x t + y t + z t ≤ UINT_MAX.

(** The generator after [k] draws between [min] and [max]. *)
Definition draws {dType G : Type} (rand : dType → dType → G → dType * G)
    (min max : dType) (k : nat) (g : G) : G :=
  Nat.iter k (λ g', (rand min max g').2) g.

(** ** Concrete tensors and layers

    All of them over [dType = int]. *)

(** [tensor4<int> t( 3, 2, 1, 1 )] *)
Definition scenario_tensor : tensor4 Z := tensor4_ctor 3 2 1 1.

(** [tensor4<int> t( 4294967295, 1, 1, 4294967295 )]: the product of the
    extents wraps to 1, so the store holds one element. *)
Definition wide_tensor : tensor4 Z := tensor4_ctor 4294967295 1 1 4294967295.

(** [tensor4<int> t( 65536, 65536, 65536, 65536 )] *)
Definition huge_tensor : tensor4 Z := tensor4_ctor 65536 65536 65536 65536.

(** [tensor4<int> t( 2, 1, 1, 1 ); t[ 0 ][ 0 ] = 7; t[ 0 ][ 1 ] = 9;] *)
Definition two_cells : tensor4 Z := Tensor4 2 1 1 1 [7; 9].

(** [scenario_tensor] after [t[ 0 ][ 2 ] = numeric_limits<int>::max()]. *)
Definition max_holder : tensor4 Z := Tensor4 3 2 1 1 [0; 0; 2 ^ 31 - 1; 0; 0; 0].


(** [tensor4<int> t( 2, 2, 2, 2 )] *)
Definition cube_tensor : tensor4 Z := tensor4_ctor 2 2 2 2.

(** A stand-in for [curnn::math::rand] on [int]: a linear congruential
    generator whose draws lie between the two bounds. *)
Definition lcg_rand (min max : Z) (g : Z) : Z * Z :=
  (min + g mod (max - min + 1), (1103515245 * g + 12345) mod 2 ^ 31).

(** * Properties *)

(** ** Machine arithmetic *)

Lemma to_uint_small n : is_uint n → to_uint n = n.
Proof. unfold is_uint, to_uint. intros Hn. apply Z.mod_small. lia. Qed.

Lemma to_uint_index index : is_int index → 0 ≤ index → to_uint index = index.
Proof. unfold is_int. intros Hi Hpos. apply to_uint_small. unfold is_uint. lia. Qed.

Lemma to_size_index index : is_int index → 0 ≤ index → to_size index = index.
Proof. unfold is_int, to_size. intros Hi Hpos. apply Z.mod_small. lia. Qed.

Lemma to_uint_range n : is_uint (to_uint n).
Proof. unfold is_uint, to_uint. apply Z.mod_pos_bound. lia. Qed.

Lemma uadd_to_uint a b : uadd (to_uint a) b = to_uint (a + b).
Proof. unfold uadd, to_uint. apply Zplus_mod_idemp_l. Qed.

Lemma uadd_to_uint_r a b : uadd a (to_uint b) = to_uint (a + b).
Proof. unfold uadd, to_uint. apply Zplus_mod_idemp_r. Qed.

Lemma uadd_plain a b : uadd a b = to_uint (a + b).
Proof. reflexivity. Qed.

Lemma umul_to_uint a b : umul (to_uint a) b = to_uint (a * b).
Proof. unfold umul, to_uint. apply Zmult_mod_idemp_l. Qed.

Lemma umul_plain a b : umul a b = to_uint (a * b).
Proof. reflexivity. Qed.

(** The product of four extents as the code computes it. *)
Lemma umul4 a b c d : umul (umul (umul a b) c) d = to_uint (a * b * c * d).
Proof. by rewrite (umul_plain a b), !umul_to_uint. Qed.

Lemma index_ok_true index e :
  is_int index → 0 ≤ index < e → index_ok index e = true.
Proof.
  intros Hi [Hpos Hlt]. unfold index_ok.
  rewrite to_uint_index by done.
  rewrite !bool_decide_eq_true_2 by done. done.
Qed.

Lemma index_ok_false index e :
  is_int index → ¬ (0 ≤ index < e) → index_ok index e = false.
Proof.
  intros Hi Hout. unfold index_ok.
  destruct (decide (0 ≤ index)) as [Hpos|Hneg].
  - rewrite to_uint_index by done.
    rewrite (bool_decide_eq_false_2 (index < e)) by lia.
    apply andb_false_r.
  - by rewrite (bool_decide_eq_false_2 (0 ≤ index)).
Qed.

(** ** The two accessors, case by case *)

Section Accessors.
Context {dType : Type} `{Numeric dType}.
Implicit Types (t : tensor4 dType) (dim index : Z) (v : dType).

Lemma dim_cases dim : 0 ≤ dim ≤ 3 → dim = 0 ∨ dim = 1 ∨ dim = 2 ∨ dim = 3.
Proof. lia. Qed.

(** The offset the code computes for an accepted index is the additive
    offset reduced modulo [2 ^ 32]. *)
Lemma offset2 a b index : uadd (uadd a b) (to_uint index) = to_uint (a + b + index).
Proof. by rewrite uadd_to_uint_r, (uadd_plain a b), <- uadd_plain, uadd_to_uint. Qed.

Lemma offset3 a b c index :
  uadd (uadd (uadd a b) c) (to_uint index) = to_uint (a + b + c + index).
Proof.
  rewrite uadd_to_uint_r, (uadd_plain a b), uadd_to_uint.
  by rewrite <- uadd_plain, uadd_to_uint.
Qed.

Lemma subscript_valid t dim index :
  is_int index → valid_access t dim index →
  tensorBoundChecker_subscript t dim index =
    if decide (to_uint (window_offset t dim index) = UINT_MAX)
    then (0, [OutOfRange index dim FirstElement])
    else (to_uint (window_offset t dim index), []).
Proof.
  intros Hi [Hd Hin].
  destruct (dim_cases dim Hd) as [-> | [-> | [-> | ->]]]; cbn in Hin;
    unfold tensorBoundChecker_subscript, window_offset;
    rewrite index_ok_true by done.
  - done.
  - by rewrite uadd_to_uint_r.
  - by rewrite offset2.
  - by rewrite offset3.
Qed.

Lemma subscript_const_valid t dim index :
  is_int index → valid_access t dim index →
  tensorBoundChecker_subscript_const t dim index =
    fetched dim index <$> vector_at (data t) (to_uint (window_offset t dim index)).
Proof.
  intros Hi [Hd Hin].
  destruct (dim_cases dim Hd) as [-> | [-> | [-> | ->]]]; cbn in Hin;
    unfold tensorBoundChecker_subscript_const, window_offset;
    rewrite index_ok_true by done.
  - by rewrite to_size_index, to_uint_index by (done || lia).
  - by rewrite uadd_to_uint_r.
  - by rewrite offset2.
  - by rewrite offset3.
Qed.

Lemma subscript_bad_index t dim index :
  is_int index → 0 ≤ dim ≤ 3 → ¬ (0 ≤ index < extent t dim) →
  tensorBoundChecker_subscript t dim index
    = (0, [OutOfRange index dim FirstElement]).
Proof.
  intros Hi Hd Hout.
  destruct (dim_cases dim Hd) as [-> | [-> | [-> | ->]]]; cbn in Hout;
    unfold tensorBoundChecker_subscript;
    by rewrite index_ok_false, decide_True.
Qed.

Lemma subscript_const_bad_index t dim index :
  is_int index → 0 ≤ dim ≤ 3 → ¬ (0 ≤ index < extent t dim) →
  tensorBoundChecker_subscript_const t dim index
    = Some (numeric_max, [OutOfRange index dim MaxValue]).
Proof.
  intros Hi Hd Hout.
  destruct (dim_cases dim Hd) as [-> | [-> | [-> | ->]]]; cbn in Hout;
    unfold tensorBoundChecker_subscript_const;
    rewrite index_ok_false by done; cbn; by rewrite decide_True.
Qed.

Lemma subscript_bad_dim t dim index :
  ¬ (0 ≤ dim ≤ 3) →
  tensorBoundChecker_subscript t dim index = (0, [DimNotValid dim FirstElement]).
Proof.
  intros Hd. destruct dim as [|p|p]; [lia| |done].
  destruct p as [[p|p|]|[p|p|]|]; try done; lia.
Qed.


(** Every refused access, whichever the reason, takes the fallback. *)
Lemma subscript_refused t dim index :
  is_int index → ¬ valid_access t dim index →
  tensorBoundChecker_subscript t dim index = (0, [report dim index FirstElement]).
Proof.
  intros Hi Hbad. unfold report. destruct (decide (0 ≤ dim ≤ 3)) as [Hd|Hd].
  - apply subscript_bad_index; [done..|]. intros Hin. by apply Hbad.
  - by apply subscript_bad_dim.
Qed.


End Accessors.

(** ** The length of the backing store *)

Section Storage.
Context {dType : Type} `{Numeric dType}.
Implicit Types (t : tensor4 dType) (dim index : Z) (v : dType).

Lemma size_default : size (tensor4_default (dType := dType)) = 0.
Proof. done. Qed.

Lemma to_nat_umul4 a b c d :
  Z.of_nat (Z.to_nat (umul (umul (umul a b) c) d)) = to_uint (a * b * c * d).
Proof.
  rewrite umul4, Z2Nat.id; [done|].
  pose proof (to_uint_range (a * b * c * d)) as Hr. unfold is_uint in Hr. lia.
Qed.

Lemma size_ctor _w _x _y _z :
  size (tensor4_ctor (dType := dType) _w _x _y _z) = to_uint (_w * _x * _y * _z).
Proof.
  unfold size, tensor4_ctor; cbn. by rewrite length_replicate, to_nat_umul4.
Qed.

Lemma size_call t w_new x_new y_new z_new :
  size (tensor4_call t w_new x_new y_new z_new)
    = to_uint (w_new * x_new * y_new * z_new).
Proof.
  unfold size, tensor4_call; cbn. by rewrite length_replicate, to_nat_umul4.
Qed.

Lemma size_reshape t w_new x_new y_new z_new :
  let t' := reshape t w_new x_new y_new z_new in
  size t' = to_uint (w t' * x t' * y t' * z t').
Proof.
  unfold size, reshape; cbn. by rewrite length_resize, to_nat_umul4.
Qed.

(** An assignment through a reference changes one element and nothing
    else. *)
Lemma store_Some t loc v t' :
  store t loc v = Some t' →
  0 ≤ loc < size t ∧
  w t' = w t ∧ x t' = x t ∧ y t' = y t ∧ z t' = z t ∧
  data t' = <[Z.to_nat loc := v]> (data t).
Proof.
  unfold store. case_decide; [|done]. intros [= <-]. done.
Qed.

Lemma store_size t loc v t' : store t loc v = Some t' → size t' = size t.
Proof.
  intros (_ & _ & _ & _ & _ & Hd)%store_Some.
  unfold size. by rewrite Hd, length_insert.
Qed.

Lemma write_Some t dim index v t' out :
  write t dim index v = Some (t', out) →
  store t (tensorBoundChecker_subscript t dim index).1 v = Some t'.
Proof.
  unfold write. destruct (tensorBoundChecker_subscript t dim index) as [loc o].
  cbn. destruct (store t loc v); [|done]. by intros [= <- _].
Qed.

End Storage.

(** ** The storage invariant *)

Section Invariant.
Context {dType : Type} `{Numeric dType}.
Implicit Types (t : tensor4 dType) (dim index : Z) (v : dType).

Lemma reachable_size_bound t : reachable t → size t ≤ UINT_MAX.
Proof.
  assert (∀ n, to_uint n ≤ UINT_MAX) as Hb.
  { intros n. pose proof (to_uint_range n) as Hn.
    unfold is_uint, UINT_MAX in *. lia. }
  induction 1 as [| a b c d | t a b c d _ _ | t a b c d _ _
                  | t dim index v t' out _ IH Hw].
  - by vm_compute.
  - rewrite size_ctor. apply Hb.
  - rewrite size_reshape. apply Hb.
  - rewrite size_call. apply Hb.
  - apply write_Some, store_size in Hw. by rewrite Hw.
Qed.

End Invariant.

(** C3, as the code has it.  For every tensor a program can build (default
    or explicit construction, then any sequence of [reshape], [operator()]
    and element assignments) [size()], the length of the backing store,
    equals [w * x * y * z] computed in 32-bit unsigned arithmetic, that is
    the product of the four extents reduced modulo [2 ^ 32]. *)
Theorem storage_length_invariant {dType : Type} `{Numeric dType}
    (t : tensor4 dType) :
  reachable t → size t = (w t * x t * y t * z t) mod 2 ^ 32.
Proof.
  induction 1 as [| a b c d | t a b c d _ _ | t a b c d _ _
                  | t dim index v t' out _ IH Hw].
  - done.
  - apply size_ctor.
  - apply size_reshape.
  - apply size_call.
  - apply write_Some in Hw. pose proof (store_size _ _ _ _ Hw) as Hs.
    apply store_Some in Hw as (_ & -> & -> & -> & -> & _). congruence.
Qed.

Lemma storage_length_invariant_witness :
  size (reshape scenario_tensor (-1) 4 (-1) (-1)) = 12.
Proof.
  rewrite (storage_length_invariant (reshape scenario_tensor (-1) 4 (-1) (-1))).
  - reflexivity.
  - apply reach_reshape, reach_ctor.
Defined.

(** C3 as stated fails: four extents of 65536 multiply to [2 ^ 64], which
    the 32-bit product wraps to 0, and the constructor allocates nothing. *)
Lemma storage_length_counterexample :
  reachable huge_tensor ∧
  size huge_tensor = 0 ∧
  w huge_tensor * x huge_tensor * y huge_tensor * z huge_tensor = 2 ^ 64 ∧
  size huge_tensor ≠ w huge_tensor * x huge_tensor * y huge_tensor * z huge_tensor.
Proof.
  split; [apply reach_ctor|]. by vm_compute.
Qed.

(** The concrete tensors are built by the calls their comments give. *)
Lemma two_cells_reachable : reachable two_cells.
Proof.
  apply (reach_write (Tensor4 2 1 1 1 [7; 0]) 0 1 9 _ []); [|reflexivity].
  apply (reach_write (tensor4_ctor 2 1 1 1) 0 0 7 _ []); [|reflexivity].
  apply reach_ctor.
Qed.

Lemma max_holder_reachable : reachable max_holder.
Proof.
  apply (reach_write scenario_tensor 0 2 numeric_max _ []); [|reflexivity].
  apply reach_ctor.
Qed.

(** ** [reshape] *)

Lemma reshape_axis (new old : Z) :
  let r := if decide (new ≠ -1) then to_uint new else old in
  (new = -1 → r = old) ∧ (0 ≤ new < 2 ^ 31 → r = new).
Proof.
  cbn. split.
  - intros ->. by rewrite decide_False by lia.
  - intros Hn. rewrite decide_True by lia. apply to_uint_small.
    unfold is_uint. lia.
Qed.

(** C6, as the code has it.  After [reshape], an axis given the sentinel
    [-1] keeps its extent and an axis given a non-negative [int] takes it;
    the store is resized to the product of the new extents reduced modulo
    [2 ^ 32]; every position below both the old and the new length keeps
    its element; every position of the new store at or beyond the old
    length holds zero. *)
Theorem reshape_keeps_resizes_pads {dType : Type} `{Numeric dType}
    (t : tensor4 dType) (w_new x_new y_new z_new : Z) :
  let t' := reshape t w_new x_new y_new z_new in
  ((w_new = -1 → w t' = w t) ∧ (0 ≤ w_new < 2 ^ 31 → w t' = w_new)) ∧
  ((x_new = -1 → x t' = x t) ∧ (0 ≤ x_new < 2 ^ 31 → x t' = x_new)) ∧
  ((y_new = -1 → y t' = y t) ∧ (0 ≤ y_new < 2 ^ 31 → y t' = y_new)) ∧
  ((z_new = -1 → z t' = z t) ∧ (0 ≤ z_new < 2 ^ 31 → z t' = z_new)) ∧
  size t' = (w t' * x t' * y t' * z t') mod 2 ^ 32 ∧
  (∀ p : nat, (p < length (data t))%nat → (p < length (data t'))%nat →
     data t' !! p = data t !! p) ∧
  (∀ p : nat, (length (data t) ≤ p)%nat → (p < length (data t'))%nat →
     data t' !! p = Some zero).
Proof.
  intros t'.
  repeat match goal with |- _ ∧ _ => split end;
    try (apply (reshape_axis _ _)).
  - apply size_reshape.
  - intros p Hold Hnew. subst t'. unfold reshape in *; cbn in *.
    rewrite length_resize in Hnew. by apply lookup_resize.
  - intros p Hold Hnew. subst t'. unfold reshape in *; cbn in *.
    rewrite length_resize in Hnew. by apply lookup_resize_new.
Qed.

(** C6 as stated fails twice.  Shrinking drops the element at a position
    below the old length; and four new extents of 65536 leave an empty
    store, not one of [2 ^ 64] elements. *)
Lemma reshape_counterexample :
  reachable two_cells ∧
  (let t' := reshape two_cells 1 (-1) (-1) (-1) in
   (1 < length (data two_cells))%nat ∧
   data two_cells !! 1%nat = Some 9 ∧ data t' !! 1%nat = None) ∧
  (let t' := reshape (tensor4_default (dType := Z)) 65536 65536 65536 65536 in
   size t' = 0 ∧ w t' * x t' * y t' * z t' = 2 ^ 64 ∧
   size t' ≠ w t' * x t' * y t' * z t').
Proof. split; [apply two_cells_reachable|]. by vm_compute. Qed.

(** ** The address mapping *)

(** C2, as the code has it.  For an in-range index the additive offset
    [o] is [index], [w + index], [w + x + index] or [w + x + y + index]
    reduced modulo [2 ^ 32].  The read-only accessor fetches [data[ o ]];
    the writable accessor returns a reference to [data[ o ]] and prints
    nothing, provided [o] is not the largest [uint]. *)
Theorem subscript_address {dType : Type} `{Numeric dType}
    (t : tensor4 dType) (dim index : Z) :
  is_int index → valid_access t dim index →
  let o := (window_offset t dim index) mod 2 ^ 32 in
  (o ≠ UINT_MAX → tensorBoundChecker_subscript t dim index = (o, [])) ∧
  tensorBoundChecker_subscript_const t dim index
    = fetched dim index <$> vector_at (data t) o.
Proof.
  intros Hi Hv o. split.
  - intros Ho. rewrite subscript_valid by done. by rewrite decide_False.
  - by apply subscript_const_valid.
Qed.

Lemma subscript_address_witness :
  tensorBoundChecker_subscript scenario_tensor 2 0 = (5, []) ∧
  tensorBoundChecker_subscript_const scenario_tensor 2 0 = Some (0, []).
Proof.
  assert (is_int 0) as Hi by (unfold is_int; lia).
  assert (valid_access scenario_tensor 2 0) as Hv by (unfold valid_access; cbn; lia).
  destruct (subscript_address scenario_tensor 2 0 Hi Hv) as [Hm Hc].
  split.
  - apply Hm. by vm_compute.
  - apply Hc.
Defined.

(** C2 as stated fails for the writable accessor: in [wide_tensor], index
    0 of dimension 1 is in range and its offset is [w + 0 = 4294967295],
    yet the accessor prints a diagnostic and returns [data[ 0 ]]. *)
Lemma subscript_address_counterexample :
  valid_access wide_tensor 1 0 ∧
  window_offset wide_tensor 1 0 = 4294967295 ∧
  tensorBoundChecker_subscript wide_tensor 1 0
    = (0, [OutOfRange 0 1 FirstElement]) ∧
  tensorBoundChecker_subscript wide_tensor 1 0
    ≠ (window_offset wide_tensor 1 0, []).
Proof.
  split; [unfold valid_access; cbn; lia|]. by vm_compute.
Qed.

(** C10.  A writable access at a valid (dimension, index) whose computed
    offset equals the largest [uint] is treated as out of range: one
    diagnostic is printed and the reference returned is to [data[ 0 ]],
    not to the addressed offset. *)
Theorem uint_max_offset_misclassified {dType : Type} `{Numeric dType}
    (t : tensor4 dType) (dim index : Z) :
  is_int index → valid_access t dim index →
  (window_offset t dim index) mod 2 ^ 32 = UINT_MAX →
  tensorBoundChecker_subscript t dim index
    = (0, [OutOfRange index dim FirstElement]) ∧
  (tensorBoundChecker_subscript t dim index).1
    ≠ (window_offset t dim index) mod 2 ^ 32.
Proof.
  intros Hi Hv Ho. rewrite subscript_valid by done.
  unfold to_uint. rewrite decide_True by done. split; [done|].
  cbn. rewrite Ho. done.
Qed.

Lemma uint_max_offset_misclassified_witness :
  tensorBoundChecker_subscript wide_tensor 1 0
    = (0, [OutOfRange 0 1 FirstElement]) ∧
  (tensorBoundChecker_subscript wide_tensor 1 0).1
    ≠ (window_offset wide_tensor 1 0) mod 2 ^ 32.
Proof.
  apply (uint_max_offset_misclassified wide_tensor 1 0).
  - unfold is_int; lia.
  - unfold valid_access; cbn; lia.
  - reflexivity.
Defined.

(** ** The fail-soft path *)




(** C7.  A read-only access at a valid (dimension, index) whose stored
    element is the largest value of the element type returns that value
    and prints the out-of-range diagnostic: the very outcome the same
    call has on a tensor where the index is out of range. *)
Theorem stored_max_reads_as_refused {dType : Type} `{Numeric dType}
    (t t' : tensor4 dType) (dim index : Z) :
  is_int index → valid_access t dim index →
  vector_at (data t) ((window_offset t dim index) mod 2 ^ 32) = Some numeric_max →
  ¬ (0 ≤ index < extent t' dim) →
  tensorBoundChecker_subscript_const t dim index
    = Some (numeric_max, [OutOfRange index dim MaxValue]) ∧
  tensorBoundChecker_subscript_const t dim index
    = tensorBoundChecker_subscript_const t' dim index.
Proof.
  intros Hi Hv Hmax Hout.
  assert (tensorBoundChecker_subscript_const t dim index
          = Some (numeric_max, [OutOfRange index dim MaxValue])) as Hget.
  { rewrite subscript_const_valid by done. unfold to_uint. rewrite Hmax.
    cbn. unfold fetched. by rewrite decide_True. }
  split; [done|]. rewrite Hget. symmetry.
  apply subscript_const_bad_index; [done| |done]. apply Hv.
Qed.

Lemma stored_max_reads_as_refused_witness :
  tensorBoundChecker_subscript_const max_holder 0 2
    = Some (numeric_max, [OutOfRange 2 0 MaxValue]) ∧
  tensorBoundChecker_subscript_const max_holder 0 2
    = tensorBoundChecker_subscript_const two_cells 0 2.
Proof.
  apply (stored_max_reads_as_refused max_holder two_cells 0 2).
  - unfold is_int; lia.
  - unfold valid_access; cbn; lia.
  - reflexivity.
  - cbn. lia.
Defined.

Lemma zero_extents_refuse_all {dType : Type} (t : tensor4 dType) dim index :
  w t = 0 → x t = 0 → y t = 0 → z t = 0 → ¬ valid_access t dim index.
Proof.
  intros Hw Hx Hy Hz [Hd Hin].
  destruct (dim_cases dim Hd) as [-> | [-> | [-> | ->]]]; cbn in Hin; lia.
Qed.

(** C9.  A refused writable access returns a reference to [data[ 0 ]]
    whatever the store holds.  On an empty store this subscript is
    outside the store, so reading or assigning through the reference is
    undefined; the fallback is within the store exactly when the store
    is not empty.  The default-constructed tensor has an empty store, and
    with four zero extents every access is a refused one. *)
Theorem fallback_needs_nonempty_store {dType : Type} `{Numeric dType}
    (t : tensor4 dType) (dim index : Z) :
  is_int index → ¬ valid_access t dim index →
  tensorBoundChecker_subscript t dim index = (0, [report dim index FirstElement]) ∧
  (data t = [] → read t dim index = None ∧ ∀ v, write t dim index v = None) ∧
  (is_Some (read t dim index) ↔ data t ≠ []) ∧
  (∀ v, is_Some (write t dim index v) ↔ data t ≠ []) ∧
  (data (tensor4_default (dType := dType)) = [] ∧
   ∀ (t' : tensor4 dType) dim' index',
     is_int index' → w t' = 0 → x t' = 0 → y t' = 0 → z t' = 0 →
     tensorBoundChecker_subscript t' dim' index'
       = (0, [report dim' index' FirstElement])).
Proof.
  intros Hi Hnv.
  pose proof (subscript_refused t dim index Hi Hnv) as Hs.
  split; [done|]. unfold read, write. rewrite Hs.
  unfold load, store, vector_at, size. cbn.
  rewrite decide_True by lia. change (Z.to_nat 0) with 0%nat.
  split; [|split; [|split; [|split; [done|]]]].
  - intros ->. split; [done|]. intros v. by rewrite decide_False by (cbn; lia).
  - destruct (data t) as [|a l]; cbn; split.
    + by intros [? ?].
    + done.
    + done.
    + intros _. by eexists.
  - intros v. destruct (data t) as [|a l]; cbn.
    + rewrite decide_False by lia. split; [by intros [? ?]|done].
    + rewrite decide_True by lia. split; [done|]. intros _. by eexists.
  - intros t' dim' index' Hi' Hw Hx Hy Hz.
    apply subscript_refused; [done|]. by apply zero_extents_refuse_all.
Qed.

Lemma fallback_needs_nonempty_store_witness :
  tensorBoundChecker_subscript (tensor4_default (dType := Z)) 0 0
    = (0, [OutOfRange 0 0 FirstElement]) ∧
  read (tensor4_default (dType := Z)) 0 0 = None ∧
  write (tensor4_default (dType := Z)) 0 0 5 = None.
Proof.
  assert (is_int 0) as Hi by (unfold is_int; lia).
  assert (¬ valid_access (tensor4_default (dType := Z)) 0 0) as Hnv
    by (unfold valid_access; cbn; lia).
  destruct (fallback_needs_nonempty_store tensor4_default 0 0 Hi Hnv)
    as (Hs & He & _).
  destruct (He eq_refl) as [Hr Hw].
  split; [exact Hs|]. split; [exact Hr|exact (Hw 5)].
Defined.

(** ** Write, then read *)

Section RoundTrip.
Context {dType : Type} `{Numeric dType}.
Implicit Types (t : tensor4 dType) (dim index : Z) (v : dType).

Lemma vector_at_insert (l : list dType) (o : Z) v :
  0 ≤ o < Z.of_nat (length l) →
  vector_at (<[Z.to_nat o := v]> l) o = Some v.
Proof.
  intros Ho. unfold vector_at. rewrite decide_True by lia.
  apply list_lookup_insert_eq. lia.
Qed.

Lemma write_then_read t dim index v :
  reachable t → is_int index → valid_access t dim index →
  to_uint (window_offset t dim index) < size t →
  ∃ t', write t dim index v = Some (t', []) ∧
        read t' dim index = Some (v, []).
Proof.
  intros Hr Hi Hv Hlt.
  set (o := to_uint (window_offset t dim index)) in *.
  assert (0 ≤ o < size t) as Ho.
  { pose proof (to_uint_range (window_offset t dim index)) as Hb.
    unfold is_uint in Hb. fold o in Hb. lia. }
  assert (o ≠ UINT_MAX) as Hne.
  { pose proof (reachable_size_bound t Hr). lia. }
  set (t' := Tensor4 (w t) (x t) (y t) (z t) (<[Z.to_nat o := v]> (data t))).
  assert (valid_access t' dim index) as Hv' by exact Hv.
  assert (to_uint (window_offset t' dim index) = o) as Ho' by reflexivity.
  exists t'. split.
  - unfold write. rewrite subscript_valid by done. fold o.
    rewrite decide_False by done. unfold store.
    by rewrite decide_True by done.
  - unfold read. rewrite subscript_valid by done. rewrite Ho'.
    rewrite decide_False by done. unfold load, t'; cbn.
    by rewrite vector_at_insert.
Qed.

End RoundTrip.

(** C4, as the code has it.  On a tensor a program can build, for a
    dimension in [{0,1,2,3}] and an index within that axis whose additive
    offset (modulo [2 ^ 32]) is below [size()], the assignment
    [t[ dim ][ index ] = v] succeeds silently and reading
    [t[ dim ][ index ]] afterwards returns [v].  In particular the tensor
    of extents (3,2,1,1) has size 6 and, after 5 is written at dimension 0
    index 2, reading dimension 0 index 2 yields 5. *)
Theorem write_read_round_trip :
  (∀ (dType : Type) (N : Numeric dType) (t : tensor4 dType) (dim index : Z)
     (v : dType),
     reachable t → is_int index → valid_access t dim index →
     (window_offset t dim index) mod 2 ^ 32 < size t →
     ∃ t', write t dim index v = Some (t', []) ∧
           read t' dim index = Some (v, [])) ∧
  (size scenario_tensor = 6 ∧
   ∃ t', write scenario_tensor 0 2 5 = Some (t', []) ∧
         read t' 0 2 = Some (5, [])).
Proof.
  split.
  - intros dType N t dim index v Hr Hi Hv Hlt.
    by apply write_then_read.
  - split; [reflexivity|]. eexists. split; reflexivity.
Qed.

Lemma write_read_round_trip_witness :
  ∃ t', write scenario_tensor 1 1 9 = Some (t', []) ∧
        read t' 1 1 = Some (9, []).
Proof.
  apply (proj1 write_read_round_trip Z int_numeric scenario_tensor 1 1 9).
  - apply reach_ctor.
  - unfold is_int; lia.
  - unfold valid_access; cbn; lia.
  - reflexivity.
Defined.

(** C4 as stated fails: in the tensor of extents (3,2,1,1), index 0 of
    dimension 3 is within the axis, but its offset [3 + 2 + 1 + 0] is the
    length of the store, so the assignment and the read go through a
    subscript outside the store. *)
Lemma write_read_counterexample :
  reachable scenario_tensor ∧
  valid_access scenario_tensor 3 0 ∧
  size scenario_tensor = 6 ∧
  tensorBoundChecker_subscript scenario_tensor 3 0 = (6, []) ∧
  write scenario_tensor 3 0 5 = None ∧
  read scenario_tensor 3 0 = None.
Proof.
  split; [apply reach_ctor|]. split; [unfold valid_access; cbn; lia|].
  by vm_compute.
Qed.

(** ** [layer] *)

Lemma for_uint_invariant {S} (P : S → Prop) bound (body : Z → S → S) s :
  P s → (∀ k s', P s' → P (body k s')) → P (for_uint bound body s).
Proof.
  intros Hs Hbody. unfold for_uint.
  generalize (seq 0 (Z.to_nat bound)). intros ks. revert s Hs.
  induction ks as [|k ks IH]; intros s Hs; cbn; [done|].
  apply IH, Hbody, Hs.
Qed.

Section LayerFacts.
Context {dType : Type} `{Numeric dType}.
Context {G : Type} (rand : dType → dType → G → dType * G).
Implicit Types (l : layer dType) (g : G) (s : layer dType * G).

Lemma assign_weight_members l min max n i d s :
  same_members l s → same_members l (assign_weight rand min max n i d s).
Proof.
  unfold assign_weight. destruct (rand min max s.2) as [v g']. done.
Qed.

Lemma nodes_loop_members l min max i d s :
  same_members l s →
  same_members l
    (for_uint (numNodes s.1) (λ n s', assign_weight rand min max n i d s') s).
Proof.
  intros Hs. apply for_uint_invariant; [done|].
  intros n s'. apply assign_weight_members.
Qed.

Lemma inputs_loop_members l min max d s :
  same_members l s →
  same_members l
    (for_uint (numInputs s.1) (λ i s',
       for_uint (numNodes s'.1) (λ n s'',
         assign_weight rand min max n i d s'') s') s).
Proof.
  intros Hs. apply for_uint_invariant; [done|].
  intros i s'. apply nodes_loop_members.
Qed.

Lemma initializeWeights_members l min max g :
  same_members l (initializeWeights rand l min max g).
Proof.
  unfold initializeWeights. apply for_uint_invariant; [done|].
  intros d s'. apply inputs_loop_members.
Qed.

End LayerFacts.

(** C8.  A layer is constructed with [outputs] holding [nodes] zeros, and
    [initializeWeights] leaves [outputs] as it found it: all zeros still
    when it is called right after construction. *)
Theorem outputs_frame {dType : Type} `{Numeric dType} {G : Type}
    (rand : dType → dType → G → dType * G)
    (policy_wba : tensor4 dType) (policy_errors : list dType)
    (_nodes _inputs _depth : Z) (min max : dType) (g : G) :
  let l := layer_ctor policy_wba policy_errors _nodes _inputs _depth in
  length (outputs l) = Z.to_nat _nodes ∧
  Forall (λ o, o = zero) (outputs l) ∧
  (∀ l' : layer dType,
     outputs (initializeWeights rand l' min max g).1 = outputs l') ∧
  Forall (λ o, o = zero) (outputs (initializeWeights rand l min max g).1).
Proof.
  intros l.
  assert (∀ l' : layer dType,
            outputs (initializeWeights rand l' min max g).1 = outputs l') as Hframe.
  { intros l'. apply (initializeWeights_members rand l' min max g). }
  assert (Forall (λ o, o = zero) (outputs l)) as Hzero.
  { unfold l, layer_ctor; cbn. apply Forall_replicate. done. }
  split; [|split; [done|split; [done|]]].
  - unfold l, layer_ctor; cbn. apply length_replicate.
  - by rewrite Hframe.
Qed.

(** * Further properties of the code *)

(** ** Windows that fit *)

Section Windows.
Context {dType : Type} `{Numeric dType}.
Implicit Types (t : tensor4 dType) (dim index : Z) (v : dType).

(** Where a window starts and ends, when the windows fit. *)
Lemma window_offset_fit t dim index :
  windows_fit t → valid_access t dim index →
  0 ≤ window_offset t dim index < w t + x t + y t + z t ∧
  to_uint (window_offset t dim index) = window_offset t dim index.
Proof.
  intros (Hw & Hx & Hy & Hz & Hsum) [Hd Hin].
  assert (0 ≤ window_offset t dim index < w t + x t + y t + z t) as Hr.
  { destruct (dim_cases dim Hd) as [-> | [-> | [-> | ->]]]; cbn in *; lia. }
  split; [done|]. apply to_uint_small. unfold is_uint, UINT_MAX in *. lia.
Qed.

Lemma subscript_fit t dim index :
  windows_fit t → is_int index → valid_access t dim index →
  tensorBoundChecker_subscript t dim index = (window_offset t dim index, []).
Proof.
  intros Hfit Hi Hv.
  destruct (window_offset_fit t dim index Hfit Hv) as [Hr Hu].
  rewrite subscript_valid, Hu by done.
  destruct Hfit as (_ & _ & _ & _ & Hsum). by rewrite decide_False by lia.
Qed.

Lemma window_offset_inj t dim1 index1 dim2 index2 :
  windows_fit t → valid_access t dim1 index1 → valid_access t dim2 index2 →
  window_offset t dim1 index1 = window_offset t dim2 index2 →
  dim1 = dim2 ∧ index1 = index2.
Proof.
  intros (Hw & Hx & Hy & Hz & Hsum) [Hd1 Hin1] [Hd2 Hin2].
  destruct (dim_cases dim1 Hd1) as [-> | [-> | [-> | ->]]];
    destruct (dim_cases dim2 Hd2) as [-> | [-> | [-> | ->]]];
    cbn in *; lia.
Qed.

(** A successful assignment through the writable accessor, spelled out. *)
Lemma write_inv t dim index v t' out :
  write t dim index v = Some (t', out) →
  let loc := (tensorBoundChecker_subscript t dim index).1 in
  0 ≤ loc < size t ∧
  out = (tensorBoundChecker_subscript t dim index).2 ∧
  t' = Tensor4 (w t) (x t) (y t) (z t) (<[Z.to_nat loc := v]> (data t)).
Proof.
  unfold write, store.
  destruct (tensorBoundChecker_subscript t dim index) as [loc o]. cbn.
  case_decide; [|done]. cbn. by intros [= <- <-].
Qed.

Lemma vector_at_insert_ne (l : list dType) (o o' : Z) v :
  0 ≤ o → 0 ≤ o' → o ≠ o' →
  vector_at (<[Z.to_nat o := v]> l) o' = vector_at l o'.
Proof.
  intros Ho Ho' Hne. unfold vector_at. rewrite !decide_True by done.
  apply list_lookup_insert_ne. lia.
Qed.

End Windows.

(** X1.  When the four windows fit below [2 ^ 32 - 1], two accepted
    accesses that the writable accessor binds to the same element of the
    store are the same access: the windows do not overlap. *)
Theorem windows_do_not_overlap {dType : Type} `{Numeric dType}
    (t : tensor4 dType) (dim1 index1 dim2 index2 : Z) :
  windows_fit t → is_int index1 → is_int index2 →
  valid_access t dim1 index1 → valid_access t dim2 index2 →
  (tensorBoundChecker_subscript t dim1 index1).1
    = (tensorBoundChecker_subscript t dim2 index2).1 →
  dim1 = dim2 ∧ index1 = index2.
Proof.
  intros Hfit Hi1 Hi2 Hv1 Hv2.
  rewrite !subscript_fit by done. cbn.
  by apply window_offset_inj.
Qed.

Lemma windows_do_not_overlap_witness : (1 : Z) = 1 ∧ (0 : Z) = 0.
Proof.
  apply (windows_do_not_overlap cube_tensor 1 0 1 0).
  - unfold windows_fit, UINT_MAX; cbn; lia.
  - unfold is_int; lia.
  - unfold is_int; lia.
  - unfold valid_access; cbn; lia.
  - unfold valid_access; cbn; lia.
  - reflexivity.
Defined.

(** X2.  When the windows fit, an assignment at one accepted place leaves
    what both accessors read at every other accepted place unchanged. *)
Theorem write_leaves_other_cells {dType : Type} `{Numeric dType}
    (t t' : tensor4 dType) (dim1 index1 dim2 index2 : Z) (v : dType)
    (out : list diagnostic) :
  windows_fit t → is_int index1 → is_int index2 →
  valid_access t dim1 index1 → valid_access t dim2 index2 →
  (dim1, index1) ≠ (dim2, index2) →
  write t dim1 index1 v = Some (t', out) →
  read t' dim2 index2 = read t dim2 index2 ∧
  tensorBoundChecker_subscript_const t' dim2 index2
    = tensorBoundChecker_subscript_const t dim2 index2.
Proof.
  intros Hfit Hi1 Hi2 Hv1 Hv2 Hne Hw.
  apply write_inv in Hw as (Hloc & _ & ->).
  rewrite subscript_fit in * by done. cbn in Hloc |- *.
  set (o1 := window_offset t dim1 index1) in *.
  set (t' := Tensor4 _ _ _ _ _).
  assert (windows_fit t') as Hfit' by exact Hfit.
  assert (valid_access t' dim2 index2) as Hv2' by exact Hv2.
  assert (window_offset t' dim2 index2 = window_offset t dim2 index2) as Ho
    by reflexivity.
  destruct (window_offset_fit t dim2 index2 Hfit Hv2) as [Hr2 Hu2].
  assert (o1 ≠ window_offset t dim2 index2) as Hdiff.
  { intros Heq. apply Hne.
    destruct (window_offset_inj t dim1 index1 dim2 index2) as [-> ->]; done. }
  split.
  - unfold read. rewrite !subscript_fit, Ho by done.
    unfold load, t'; cbn. by rewrite vector_at_insert_ne by lia.
  - rewrite !subscript_const_valid, Ho, Hu2 by done.
    unfold t'; cbn. by rewrite vector_at_insert_ne by lia.
Qed.

Lemma write_leaves_other_cells_witness :
  ∃ t', write cube_tensor 1 0 9 = Some (t', []) ∧
        read t' 0 1 = read cube_tensor 0 1 ∧
        tensorBoundChecker_subscript_const t' 0 1
          = tensorBoundChecker_subscript_const cube_tensor 0 1.
Proof.
  eexists. split; [reflexivity|].
  apply (write_leaves_other_cells cube_tensor _ 1 0 0 1 9 []).
  - unfold windows_fit, UINT_MAX; cbn; lia.
  - unfold is_int; lia.
  - unfold is_int; lia.
  - unfold valid_access; cbn; lia.
  - unfold valid_access; cbn; lia.
  - discriminate.
  - reflexivity.
Defined.

(** X3.  When the windows fit and the store holds at least
    [w + x + y + z] elements, every accepted access stays inside the
    store: the assignment succeeds without a diagnostic and both
    accessors read an element. *)
Theorem accepted_access_in_store {dType : Type} `{Numeric dType}
    (t : tensor4 dType) (dim index : Z) (v : dType) :
  windows_fit t → w t + x t + y t + z t ≤ size t →
  is_int index → valid_access t dim index →
  (∃ t', write t dim index v = Some (t', [])) ∧
  (∃ e, read t dim index = Some (e, [])) ∧
  is_Some (tensorBoundChecker_subscript_const t dim index).
Proof.
  intros Hfit Hsize Hi Hv.
  destruct (window_offset_fit t dim index Hfit Hv) as [Hr Hu].
  set (o := window_offset t dim index) in *.
  assert (is_Some (vector_at (data t) o)) as [e He].
  { unfold vector_at. rewrite decide_True by lia.
    apply lookup_lt_is_Some. unfold size in Hsize. lia. }
  split; [|split].
  - unfold write. rewrite subscript_fit by done. fold o. unfold store.
    rewrite decide_True by lia. by eexists.
  - exists e. unfold read. rewrite subscript_fit by done. fold o.
    unfold load. by rewrite He.
  - rewrite subscript_const_valid by done. fold o. rewrite Hu, He. by eexists.
Qed.

Lemma accepted_access_in_store_witness :
  (∃ t', write cube_tensor 3 1 9 = Some (t', [])) ∧
  (∃ e, read cube_tensor 3 1 = Some (e, [])) ∧
  is_Some (tensorBoundChecker_subscript_const cube_tensor 3 1).
Proof.
  apply (accepted_access_in_store cube_tensor 3 1 9).
  - unfold windows_fit, UINT_MAX; cbn; lia.
  - by vm_compute.
  - unfold is_int; lia.
  - unfold valid_access; cbn; lia.
Defined.

(** X4.  In a tensor that the constructor has just built, reading
    [t[ dim ][ index ]] at an accepted place whose offset is inside the
    store yields the zero of the element type, without a diagnostic. *)
Theorem constructed_tensor_reads_zero {dType : Type} `{Numeric dType}
    (_w _x _y _z dim index : Z) :
  let t := tensor4_ctor _w _x _y _z in
  is_int index → valid_access t dim index →
  (window_offset t dim index) mod 2 ^ 32 < size t →
  read t dim index = Some (zero, []).
Proof.
  intros t Hi Hv Hlt.
  pose proof (reachable_size_bound t (reach_ctor _ _ _ _)) as Hb.
  pose proof (to_uint_range (window_offset t dim index)) as Hr.
  unfold is_uint in Hr. fold (to_uint (window_offset t dim index)) in Hlt.
  set (o := to_uint (window_offset t dim index)) in *.
  assert (vector_at (data t) o = Some zero) as Hz.
  { unfold vector_at. rewrite decide_True by lia. unfold t, tensor4_ctor; cbn.
    apply lookup_replicate_2. unfold size, t, tensor4_ctor in Hlt; cbn in Hlt.
    rewrite length_replicate in Hlt. lia. }
  unfold read. rewrite subscript_valid by done. fold o.
  rewrite decide_False by lia. unfold load. by rewrite Hz.
Qed.

Lemma constructed_tensor_reads_zero_witness :
  read scenario_tensor 2 0 = Some (zero, []).
Proof.
  assert (is_int 0) as Hi by (unfold is_int; lia).
  assert (valid_access scenario_tensor 2 0) as Hv
    by (unfold valid_access; cbn; lia).
  assert ((window_offset scenario_tensor 2 0) mod 2 ^ 32 < size scenario_tensor)
    as Hlt by reflexivity.
  exact (constructed_tensor_reads_zero 3 2 1 1 2 0 Hi Hv Hlt).
Defined.

(** X5.  The writable accessor prints nothing exactly when the access is
    accepted and its offset is not the largest [uint]; otherwise it prints
    one message. *)
Theorem writable_silent_iff {dType : Type} `{Numeric dType}
    (t : tensor4 dType) (dim index : Z) :
  is_int index →
  ((tensorBoundChecker_subscript t dim index).2 = [] ↔
     valid_access t dim index ∧
     (window_offset t dim index) mod 2 ^ 32 ≠ UINT_MAX) ∧
  (length (tensorBoundChecker_subscript t dim index).2 ≤ 1)%nat.
Proof.
  intros Hi. fold (to_uint (window_offset t dim index)).
  destruct (decide (valid_access t dim index)) as [Hv|Hnv].
  - rewrite subscript_valid by done. case_decide as Ho; cbn.
    + split; [|lia]. split; [done|]. by intros [_ ?].
    + split; [|lia]. done.
  - rewrite subscript_refused by done. cbn. split; [|lia].
    split; [done|]. by intros [? _].
Qed.

Lemma writable_silent_iff_witness :
  ((tensorBoundChecker_subscript wide_tensor 1 0).2 = [] ↔
     valid_access wide_tensor 1 0 ∧
     (window_offset wide_tensor 1 0) mod 2 ^ 32 ≠ UINT_MAX) ∧
  (length (tensorBoundChecker_subscript wide_tensor 1 0).2 ≤ 1)%nat.
Proof.
  apply (writable_silent_iff wide_tensor 1 0). unfold is_int; lia.
Defined.

(** X6.  Whatever the tensor, the dimension and the index, the subscript
    the writable accessor binds its reference to is a [uint] other than
    the largest one. *)
Theorem writable_subscript_range {dType : Type} `{Numeric dType}
    (t : tensor4 dType) (dim index : Z) :
  0 ≤ (tensorBoundChecker_subscript t dim index).1 < UINT_MAX.
Proof.
  assert (∀ o, 0 ≤ o < 2 ^ 32 →
            0 ≤ (if decide (o = UINT_MAX)
                 then (0, [OutOfRange index dim FirstElement])
                 else (o, [])).1 < UINT_MAX) as Hchecked.
  { intros o Ho. case_decide; cbn; unfold UINT_MAX in *; lia. }
  assert (∀ n, 0 ≤ n mod 2 ^ 32 < 2 ^ 32) as Hmod
    by (intros n; apply Z.mod_pos_bound; lia).
  assert (0 ≤ UINT_MAX < 2 ^ 32) as Hmax by (unfold UINT_MAX; lia).
  unfold tensorBoundChecker_subscript.
  destruct dim as [|p|p]; [| |cbn; unfold UINT_MAX; lia].
  - apply Hchecked. destruct (index_ok index (w t)); [apply Hmod|done].
  - destruct p as [[p|p|]|[p|p|]|]; try (cbn; unfold UINT_MAX; lia);
      apply Hchecked; destruct (index_ok _ _); try done; apply Hmod.
Qed.

(** X7.  A refused assignment is not dropped: on a store that is not
    empty it replaces the first element and leaves the rest. *)
Theorem refused_write_overwrites_first {dType : Type} `{Numeric dType}
    (t : tensor4 dType) (dim index : Z) (v e : dType) (rest : list dType) :
  is_int index → ¬ valid_access t dim index → data t = e :: rest →
  write t dim index v
    = Some (Tensor4 (w t) (x t) (y t) (z t) (v :: rest),
            [report dim index FirstElement]).
Proof.
  intros Hi Hnv Hd. unfold write. rewrite subscript_refused by done.
  unfold store, size. rewrite Hd. cbn.
  rewrite decide_True by lia. done.
Qed.

Lemma refused_write_overwrites_first_witness :
  write two_cells 0 5 4
    = Some (Tensor4 2 1 1 1 [4; 9], [OutOfRange 5 0 FirstElement]).
Proof.
  apply (refused_write_overwrites_first two_cells 0 5 4 7 [9]).
  - unfold is_int; lia.
  - unfold valid_access; cbn; lia.
  - reflexivity.
Defined.

(** X9.  A tensor constructed with a zero extent has an empty store, and
    no assignment or read through the writable accessor is defined on it,
    whether the index is accepted or refused. *)
Theorem zero_extent_tensor_unusable {dType : Type} `{Numeric dType}
    (_w _x _y _z dim index : Z) (v : dType) :
  _w = 0 ∨ _x = 0 ∨ _y = 0 ∨ _z = 0 →
  let t := tensor4_ctor _w _x _y _z in
  size t = 0 ∧ write t dim index v = None ∧ read t dim index = None.
Proof.
  intros Hzero t.
  assert (data t = []) as Hd.
  { unfold t, tensor4_ctor; cbn. rewrite umul4.
    replace (_w * _x * _y * _z) with 0 by (destruct Hzero as [->|[->|[->| ->]]]; lia).
    done. }
  split; [by unfold size; rewrite Hd|].
  unfold write, read, store, load, vector_at, size.
  destruct (tensorBoundChecker_subscript t dim index) as [loc o].
  rewrite Hd. cbn. split.
  - rewrite decide_False by lia. done.
  - by destruct (decide (0 ≤ loc)).
Qed.

Lemma zero_extent_tensor_unusable_witness :
  let t := tensor4_ctor (dType := Z) 3 0 1 1 in
  size t = 0 ∧ write t 0 0 5 = None ∧ read t 0 0 = None.
Proof.
  apply (zero_extent_tensor_unusable 3 0 1 1 0 0 5). right. left. reflexivity.
Defined.

(** ** More on [reshape] *)

Section Reshape.
Context {dType : Type} `{Numeric dType}.
Implicit Types (t : tensor4 dType).

(** The store of a tensor a program can build has the length [reshape]
    would give it for the same extents. *)
Lemma reachable_length t :
  reachable t →
  length (data t) = Z.to_nat (umul (umul (umul (w t) (x t)) (y t)) (z t)).
Proof.
  intros Hr. induction Hr as [| | | |t dim index v t' out _ IH Hw]; cbn.
  - done.
  - apply length_replicate.
  - apply length_resize.
  - apply length_replicate.
  - apply write_inv in Hw as (_ & _ & ->). cbn. by rewrite length_insert.
Qed.

Lemma to_uint_negative a : - 2 ^ 32 ≤ a < 0 → to_uint a = a + 2 ^ 32.
Proof.
  intros Ha. unfold to_uint.
  replace a with (a + 2 ^ 32 + (-1) * 2 ^ 32) at 1 by lia.
  rewrite Z_mod_plus_full. apply Z.mod_small. lia.
Qed.

End Reshape.

(** X11.  On a tensor a program can build, [reshape( -1, -1, -1, -1 )]
    changes nothing. *)
Theorem reshape_keep_all_is_identity {dType : Type} `{Numeric dType}
    (t : tensor4 dType) :
  reachable t → reshape t (-1) (-1) (-1) (-1) = t.
Proof.
  intros Hr. unfold reshape; cbn.
  rewrite !decide_False by (intros Hne; by apply Hne).
  rewrite <- (reachable_length t Hr), resize_all. by destruct t.
Qed.

Lemma reshape_keep_all_is_identity_witness :
  reshape two_cells (-1) (-1) (-1) (-1) = two_cells.
Proof.
  apply (reshape_keep_all_is_identity two_cells). apply two_cells_reachable.
Defined.

(** X12.  [reshape] does not reject a negative extent other than the
    sentinel: [reshape( a, 1, 1, 1 )] with [a < -1] sets the first extent
    to [a + 2 ^ 32], at least [2 ^ 31], and resizes the store to that many
    elements. *)
Theorem reshape_negative_extent_wraps {dType : Type} `{Numeric dType}
    (t : tensor4 dType) (a : Z) :
  is_int a → a < -1 →
  let t' := reshape t a 1 1 1 in
  w t' = a + 2 ^ 32 ∧ 2 ^ 31 ≤ w t' ∧ size t' = a + 2 ^ 32.
Proof.
  intros Ha Hneg t'. unfold is_int in Ha.
  assert (w t' = a + 2 ^ 32) as Hw.
  { unfold t', reshape; cbn. rewrite decide_True by lia.
    apply to_uint_negative. lia. }
  assert (x t' = 1 ∧ y t' = 1 ∧ z t' = 1) as (Hx & Hy & Hz) by done.
  split; [done|]. split; [lia|].
  pose proof (size_reshape t a 1 1 1) as Hs. cbn zeta in Hs. fold t' in Hs.
  rewrite Hs, Hw, Hx, Hy, Hz.
  replace ((a + 2 ^ 32) * 1 * 1 * 1) with (a + 2 ^ 32) by lia.
  apply to_uint_small. unfold is_uint. lia.
Qed.

Lemma reshape_negative_extent_wraps_witness :
  let t' := reshape (tensor4_default (dType := Z)) (-2) 1 1 1 in
  w t' = -2 + 2 ^ 32 ∧ 2 ^ 31 ≤ w t' ∧ size t' = -2 + 2 ^ 32.
Proof.
  apply (reshape_negative_extent_wraps tensor4_default (-2)).
  - unfold is_int; lia.
  - lia.
Defined.

(** X13.  Growing and reshaping back loses nothing: on a tensor a program
    can build whose extents are below [2 ^ 31], a [reshape] that does not
    shrink the store, followed by a [reshape] to the old extents, gives
    the old tensor back. *)
Theorem reshape_grow_then_back {dType : Type} `{Numeric dType}
    (t : tensor4 dType) (w_new x_new y_new z_new : Z) :
  reachable t →
  0 ≤ w t < 2 ^ 31 → 0 ≤ x t < 2 ^ 31 → 0 ≤ y t < 2 ^ 31 → 0 ≤ z t < 2 ^ 31 →
  size t ≤ size (reshape t w_new x_new y_new z_new) →
  reshape (reshape t w_new x_new y_new z_new) (w t) (x t) (y t) (z t) = t.
Proof.
  intros Hr Hw Hx Hy Hz Hgrow.
  pose proof (reachable_length t Hr) as Hlen.
  set (r := reshape t w_new x_new y_new z_new) in *.
  assert (data r = resize (length (data r)) zero (data t)) as Hdr.
  { unfold r, reshape; cbn. by rewrite length_resize. }
  unfold size in Hgrow. unfold reshape.
  rewrite !decide_True by lia.
  rewrite !to_uint_small by (unfold is_uint; lia).
  rewrite <- Hlen, Hdr, resize_resize by lia.
  rewrite resize_all. by destruct t.
Qed.

Lemma reshape_grow_then_back_witness :
  reshape (reshape two_cells 3 (-1) (-1) (-1)) 2 1 1 1 = two_cells.
Proof.
  apply (reshape_grow_then_back two_cells 3 (-1) (-1) (-1)).
  - apply two_cells_reachable.
  - cbn; lia.
  - cbn; lia.
  - cbn; lia.
  - cbn; lia.
  - by vm_compute.
Defined.

(** ** More on [layer] *)

Lemma for_uint_zero {S} bound (body : Z → S → S) s :
  bound ≤ 0 → for_uint bound body s = s.
Proof.
  intros Hb. unfold for_uint. by replace (Z.to_nat bound) with 0%nat by lia.
Qed.

Lemma fold_left_iter {S G} (P : S → Prop) (proj : S → G) (f : G → G)
    (body : Z → S → S) (ks : list nat) s :
  P s →
  (∀ k s', P s' → P (body k s') ∧ proj (body k s') = f (proj s')) →
  P (fold_left (λ s' k, body (Z.of_nat k) s') ks s) ∧
  proj (fold_left (λ s' k, body (Z.of_nat k) s') ks s)
    = Nat.iter (length ks) f (proj s).
Proof.
  intros Hs Hbody. revert s Hs.
  induction ks as [|k ks IH]; intros s Hs; [done|].
  destruct (Hbody (Z.of_nat k) s Hs) as [HP Hproj].
  destruct (IH _ HP) as [HP' Hproj'].
  split; [done|]. cbn [fold_left length].
  by rewrite Hproj', Hproj, Nat.iter_succ_r.
Qed.

(** A loop whose body advances a component of the state by [f] and keeps
    [P] advances it [bound] times. *)
Lemma for_uint_iter {S G} (P : S → Prop) (proj : S → G) (f : G → G)
    bound (body : Z → S → S) s :
  P s →
  (∀ k s', P s' → P (body k s') ∧ proj (body k s') = f (proj s')) →
  P (for_uint bound body s) ∧
  proj (for_uint bound body s) = Nat.iter (Z.to_nat bound) f (proj s).
Proof.
  intros Hs Hbody. unfold for_uint.
  destruct (fold_left_iter P proj f body (seq 0 (Z.to_nat bound)) s Hs Hbody)
    as [HP Hproj].
  split; [done|]. by rewrite Hproj, length_seq.
Qed.

Lemma iter_mul {A} (a b : nat) (f : A → A) (x0 : A) :
  Nat.iter a (Nat.iter b f) x0 = Nat.iter (a * b) f x0.
Proof.
  induction a as [|a IH]; [done|].
  cbn [Nat.iter Nat.mul]. change (nat_rect _ ?x (λ _, ?g) ?n) with (Nat.iter n g x).
  by rewrite Nat.iter_add, <- IH.
Qed.

(** X14.  [initializeWeights] draws from the generator once per (page,
    input, node) triple, always with the bounds it was given: on return
    the generator has made [depth * numInputs * numNodes] draws. *)
Theorem initializeWeights_draws {dType : Type} `{Numeric dType} {G : Type}
    (rand : dType → dType → G → dType * G)
    (l : layer dType) (min max : dType) (g : G) :
  (initializeWeights rand l min max g).2
    = draws rand min max
        (Z.to_nat (depth l) * Z.to_nat (numInputs l) * Z.to_nat (numNodes l)) g.
Proof.
  unfold draws. set (step := λ g' : G, (rand min max g').2).
  rewrite <- !iter_mul. unfold initializeWeights.
  apply (for_uint_iter (same_members l) snd); [done|].
  intros d s Hs. pose proof Hs as (_ & Hi & _). rewrite Hi.
  apply (for_uint_iter (same_members l) snd); [done|].
  intros i s' Hs'. pose proof Hs' as (Hn & _). rewrite Hn.
  apply (for_uint_iter (same_members l) snd); [done|].
  intros n s'' Hs''. split.
  - by apply assign_weight_members.
  - unfold assign_weight, step. by destruct (rand min max s''.2).
Qed.

(** X15.  In a layer with no page, no input or no node the loops of
    [initializeWeights] never reach their body: the layer, [wba]
    included, and the generator come back unchanged. *)
Theorem initializeWeights_without_cells {dType : Type} `{Numeric dType}
    {G : Type} (rand : dType → dType → G → dType * G)
    (l : layer dType) (min max : dType) (g : G) :
  depth l ≤ 0 ∨ numInputs l ≤ 0 ∨ numNodes l ≤ 0 →
  initializeWeights rand l min max g = (l, g).
Proof.
  intros [Hd | [Hi | Hn]]; unfold initializeWeights.
  - by apply for_uint_zero.
  - apply (for_uint_invariant (λ s, s = (l, g))); [done|].
    intros d s' ->. by apply for_uint_zero.
  - apply (for_uint_invariant (λ s, s = (l, g))); [done|].
    intros d s' ->. apply (for_uint_invariant (λ s, s = (l, g))); [done|].
    intros i s' ->. by apply for_uint_zero.
Qed.

Lemma initializeWeights_without_cells_witness :
  let l := layer_ctor (tensor4_ctor 4 6 2 1) [0; 0; 0; 0] 4 0 2 in
  initializeWeights lcg_rand l (-1) 1 2015 = (l, 2015).
Proof.
  apply (initializeWeights_without_cells lcg_rand
           (layer_ctor (tensor4_ctor 4 6 2 1) [0; 0; 0; 0] 4 0 2) (-1) 1 2015).
  right. left. cbn. lia.
Defined.

(** X16.  [getOutputs] of a freshly constructed layer is a pointer to
    [_nodes] zeros when [_nodes] is positive and is undefined when it is
    zero; [initializeWeights] changes neither what [getOutputs] nor what
    [getErrors] returns. *)
Theorem getOutputs_after_construction {dType : Type} `{Numeric dType}
    {G : Type} (rand : dType → dType → G → dType * G)
    (policy_wba : tensor4 dType) (policy_errors : list dType)
    (_nodes _inputs _depth : Z) :
  let l := layer_ctor policy_wba policy_errors _nodes _inputs _depth in
  (0 < _nodes → getOutputs l = Some (replicate (Z.to_nat _nodes) zero)) ∧
  (_nodes ≤ 0 → getOutputs l = None) ∧
  (∀ (l' : layer dType) min max g,
     getOutputs (initializeWeights rand l' min max g).1 = getOutputs l' ∧
     getErrors (initializeWeights rand l' min max g).1 = getErrors l').
Proof.
  intros l. split; [|split].
  - intros Hpos. unfold getOutputs, l, layer_ctor; cbn.
    destruct (Z.to_nat _nodes) as [|k] eqn:Hk; [lia|done].
  - intros Hzero. unfold getOutputs, l, layer_ctor; cbn.
    by replace (Z.to_nat _nodes) with 0%nat by lia.
  - intros l' min max g.
    destruct (initializeWeights_members rand l' min max g)
      as (_ & _ & _ & Ho & He).
    unfold getOutputs, getErrors. by rewrite Ho, He.
Qed.
